(** * popperOptionsWithAutoOffset (src-ui/src/app/utils/popper-options.ts)

    A shallow embedding of the dropdown offset helper of the UI and the
    properties of its behaviour.

    The TypeScript function reads [window?.innerWidth], and when that width
    is below 400 it pushes one ["offset"] modifier onto [config.modifiers].
    The modifier carries an arrow function that the positioning library
    calls at every layout pass.  The embedding keeps

    - ECMAScript numbers as IEEE 754 binary64 values ([spec_float]),
    - the objects that the function shares with its caller (the window, the
      dropdown element, the configuration objects and their modifier
      arrays) in an explicit store addressed by references,
    - the arrow function as a closure value: its code is [offset_fn], its
      captured variables are the fields of [OffsetsFunction],
    - exceptions as an explicit [Throw] completion: the [TypeError] of a
      [push] on a missing array, and the [ReferenceError] of a realm in
      which [window] is not declared. *)

From Stdlib Require Import ZArith SpecFloat.
From stdpp Require Import base option list functions strings.

(** ** ECMAScript numbers *)

Definition prec : Z := 53.
Definition emax : Z := 1024.

Definition number : Type := spec_float.

Definition NaN : number := S754_nan.
Definition Infinity : number := S754_infinity false.

(** The value of an integer literal. *)
Definition of_Z (z : Z) : number := binary_normalize prec emax z 0 false.

Definition number_add (a b : number) : number := SFadd prec emax a b.
Definition number_sub (a b : number) : number := SFsub prec emax a b.

(** Relational operators; every comparison with [NaN] is [false]. *)
Definition number_ltb (a b : number) : bool := SFltb a b.
Definition number_leb (a b : number) : bool := SFleb a b.

Definition is_nan (a : number) : bool :=
  match a with S754_nan => true | _ => false end.

(** The smaller of [a] and [b] in the order of [SFcompare], written as
    [Z.min] is; [a] when the two are unordered. *)
Definition number_min (a b : number) : number :=
  match SFcompare a b with
  | Some Gt => b
  | _ => a
  end.

(** [ToNumber] on a value of type [number | undefined]. *)
Definition ToNumber (v : option number) : number :=
  match v with
  | None => NaN
  | Some n => n
  end.

Declare Scope number_scope.
Delimit Scope number_scope with num.
Bind Scope number_scope with number.
Infix "+" := number_add : number_scope.
Infix "-" := number_sub : number_scope.
Infix "<?" := number_ltb : number_scope.
Infix "<=?" := number_leb : number_scope.

(** ** Objects *)

(** Object identity. *)
Definition ref : Type := positive.

(** The part of the global [window] the function reads. *)
Record Window := { innerWidth : number }.

(** The part of an [HTMLElement] the arrow function reads. *)
Record HTMLElement := { offsetLeft : number }.

(** The [this] of the call.  The source says of it: "method is scoped,
    'this' is NgbDropdown"; its [_nativeElement] is annotated
    [HTMLElement], a reference to the DOM element of the dropdown. *)
Record NgbDropdown := { _nativeElement : ref }.

(** Popper's [Rect], and the argument of an offset function. *)
Record Rect := { width : number; height : number; rect_x : number; rect_y : number }.

Record LayoutState := {
  popper : Rect;
  reference : Rect;
  placement : string;
}.

(** The arrow function of lines 12-16 as a closure: the two variables of
    the enclosing call that its body mentions. *)
Record OffsetsFunction := {
  windowWidth : option number;
  dropdownElement : ref;
}.

(** Popper's [offset] option is a pair or a function. *)
Inductive Offset :=
| OffsetPair (skidding distance : number)
| OffsetFn (f : OffsetsFunction).

Record ModifierOptions := { offset : option Offset }.

Record Modifier := {
  name : string;
  options : option ModifierOptions;
}.

(** [Partial<Options>]: every field may be missing. *)
Record PartialOptions := {
  cfg_placement : option string;
  strategy : option string;
  modifiers : option ref;
}.

(** ** The store

    Every reference denotes an object of its type.  The global [window]
    is a declared binding, as in a browser; it may hold [undefined], which
    is what the optional chaining of the source provides for.  A realm
    without that binding is the subject of [Realm] below. *)

Record World := {
  window : option Window;             (* the global; [None] is [undefined] *)
  elements : ref -> HTMLElement;
  configs : ref -> PartialOptions;
  arrays : ref -> list Modifier;
}.

Definition set_arrays (f : ref -> list Modifier) (w : World) : World :=
  {| window := window w; elements := elements w;
     configs := configs w; arrays := f |}.

Definition set_config (config : ref) (o : PartialOptions) (w : World)
  : World :=
  {| window := window w; elements := elements w;
     configs := <[config := o]> (configs w); arrays := arrays w |}.

(** What the environment does between two calls: the viewport is resized,
    an element moves. *)
Definition resize (v : option Window) (w : World) : World :=
  {| window := v; elements := elements w;
     configs := configs w; arrays := arrays w |}.

Definition move (e : ref) (left : number) (w : World) : World :=
  {| window := window w;
     elements := <[e := {| offsetLeft := left |}]> (elements w);
     configs := configs w; arrays := arrays w |}.

(** ** Computations: state and exceptions *)

Inductive Error := TypeError | ReferenceError.

Inductive completion (A : Type) :=
| Normal (a : A)
| Throw (e : Error).
Arguments Normal {A} a.
Arguments Throw {A} e.

Definition JS (A : Type) : Type := World -> completion A * World.

Global Instance JS_ret : MRet JS := fun A (a : A) w => (Normal a, w).

Definition throw {A} (e : Error) : JS A := fun w => (Throw e, w).

Global Instance JS_bind : MBind JS := fun A B (k : A -> JS B) (m : JS A) w =>
  match m w with
  | (Normal a, w') => k a w'
  | (Throw e, w') => (Throw e, w')
  end.

(** [window?.innerWidth] *)
Definition window_innerWidth : JS (option number) :=
  fun w => (Normal (innerWidth <$> window w), w).

(** [config.modifiers] *)
Definition get_modifiers (config : ref) : JS (option ref) :=
  fun w => (Normal (modifiers (configs w config)), w).

(** [a.push(m)]: reading [push] off [undefined] is a [TypeError];
    otherwise the array grows in place and the new length is the value. *)
Definition push (a : option ref) (m : Modifier) : JS nat :=
  match a with
  | None => throw TypeError
  | Some r =>
      fun w =>
        let items := arrays w r ++ [m] in
        (Normal (length items), set_arrays (<[r := items]> (arrays w)) w)
  end.

(** [e.offsetLeft] *)
Definition get_offsetLeft (e : ref) : JS number :=
  fun w => (Normal (offsetLeft (elements w e)), w).

(** ** The source *)

(** The body of the arrow function: [reference] and [placement] are bound
    by the parameter pattern and not used. *)
Definition offset_fn (f : OffsetsFunction) (state : LayoutState)
  : JS (number * number) :=
  let popper := popper state in
  left ← get_offsetLeft (dropdownElement f);
  let rightOverflow :=
    (ToNumber (windowWidth f) - of_Z 10 - (left + width popper))%num in
  mret (if (rightOverflow <? of_Z 0)%num then rightOverflow else of_Z 0,
       of_Z 0).

Definition popperOptionsWithAutoOffset (this : NgbDropdown) (config : ref)
  : JS ref :=
  windowWidth ← window_innerWidth;
  (if (ToNumber windowWidth <? of_Z 400)%num then
     let dropdownElement := _nativeElement this in
     a ← get_modifiers config;
     push a {| name := "offset";
               options := Some {| offset := Some (OffsetFn
                 {| windowWidth := windowWidth;
                    dropdownElement := dropdownElement |}) |} |};;
     mret tt
   else mret tt);;
  mret config.

(** The entry the function pushes. *)
Definition offset_modifier (f : OffsetsFunction) : Modifier :=
  {| name := "offset";
     options := Some {| offset := Some (OffsetFn f) |} |}.

(** The offset function of a modifier entry, when it carries one. *)
Definition modifier_fn (m : Modifier) : option OffsetsFunction :=
  match options m with
  | Some {| offset := Some (OffsetFn f) |} => Some f
  | _ => None
  end.

(** The offset as the specification writes it:
    [[min(0, (W - 10) - (L + P)), 0]]. *)
Definition spec_offset (W L P : number) : number * number :=
  (number_min (of_Z 0) (W - of_Z 10 - (L + P))%num, of_Z 0).

(** The function called once per layout state of [states], one call after
    the other in the same store. *)
Fixpoint layout_passes (f : OffsetsFunction) (states : list LayoutState)
  : JS (list (number * number)) :=
  match states with
  | [] => mret []
  | state :: rest =>
      out ← offset_fn f state;
      outs ← layout_passes f rest;
      mret (out :: outs)
  end.

(** ** The set-up of the unit tests

    [mockDropdownElement.offsetLeft = 100], [config = { modifiers: [] }],
    [window.innerWidth = W]. *)

Definition mockDropdownElement : ref := 3%positive.
Definition context : NgbDropdown := {| _nativeElement := mockDropdownElement |}.
Definition test_config : ref := 1%positive.
Definition test_modifiers : ref := 2%positive.

Definition test_world (W : option number) (mods : option ref) : World :=
  {| window := (fun n => {| innerWidth := n |}) <$> W;
     elements := fun _ => {| offsetLeft := of_Z 100 |};
     configs := fun _ =>
       {| cfg_placement := None; strategy := None; modifiers := mods |};
     arrays := fun _ => [] |}.

Definition test_state (P : number) : LayoutState :=
  let rect := {| width := P; height := of_Z 0;
                 rect_x := of_Z 0; rect_y := of_Z 0 |} in
  {| popper := rect; reference := rect; placement := "bottom" |}.

(** The offset function at index [i] of the modifiers array, called on a
    popper of width [P] in the store the call has left. *)
Definition offset_at (w' : World) (i : nat) (P : number)
  : option (completion (number * number)) :=
  f ← arrays w' test_modifiers !! i ≫= modifier_fn;
  Some (offset_fn f (test_state P) w').1.

(** ** The realm

    The store is that of a realm in which the identifier [window] is
    declared.  Where it is not (a server, a worker), line 6 does not get
    as far as the optional chaining: resolving the identifier is a
    [ReferenceError], and [?.] only guards the property access that comes
    after it.  [window_declared] says which realm the call runs in; the
    [window] of the store is looked at only when it is declared. *)

Record Realm := {
  window_declared : bool;
  store : World;
}.

(** The function in a realm: the first thing line 6 does is to resolve
    [window]; the rest is the function above. *)
Definition popperOptionsWithAutoOffset_in (this : NgbDropdown) (config : ref)
    (g : Realm) : completion ref * Realm :=
  if window_declared g then
    let '(r, w') := popperOptionsWithAutoOffset this config (store g) in
    (r, {| window_declared := true; store := w' |})
  else (Throw ReferenceError, g).

(** ** Repeated calls

    [true] when a call that finds [v] in the global [window] takes the
    branch that pushes. *)
Definition narrow (v : option Window) : bool :=
  (ToNumber (innerWidth <$> v) <? of_Z 400)%num.

(** What one call pushes for the dropdown [this] when the window is [v]. *)
Definition pushed (this : NgbDropdown) (v : option Window) : list Modifier :=
  if narrow v then
    [offset_modifier {| windowWidth := innerWidth <$> v;
                        dropdownElement := _nativeElement this |}]
  else [].

(** The function called once per element of [vs] with the same [this] and
    the same [config], the window having become [v] before the call. *)
Fixpoint open_each (this : NgbDropdown) (config : ref)
    (vs : list (option Window)) : JS unit :=
  match vs with
  | [] => mret tt
  | v :: rest =>
      (λ w, (Normal tt, resize v w));;
      popperOptionsWithAutoOffset this config;;
      open_each this config rest
  end.

(** ** Integers among the numbers *)

(** The integers that binary64 holds exactly, [Number.isSafeInteger]. *)
Definition safe_integer (z : Z) : Prop := (Z.abs z < 2 ^ 53)%Z.

(** [p] shifted left by [n] bits; [p] itself when [n] is not positive. *)
Definition shl (p : positive) (n : Z) : positive :=
  match n with
  | Zpos k => Pos.iter xO p k
  | _ => p
  end.

(** The integer that a sign and a magnitude stand for, and its binary64
    representation: the magnitude shifted to 53 bits. *)
Definition signed (s : bool) (p : positive) : Z :=
  if s then Zneg p else Zpos p.

Definition normal (s : bool) (p : positive) : number :=
  let d := Zpos (digits2_pos p) in
  S754_finite s (shl p (prec - d)) (d - prec).

(** A length in whole pixels, far inside the safe integers. *)
Definition pixels (z : Z) : Prop := (Z.abs z ≤ 2 ^ 50)%Z.

(** Unfolds a computation down to the store. *)
Ltac run_js :=
  unfold popperOptionsWithAutoOffset, offset_fn, window_innerWidth,
    get_modifiers, get_offsetLeft, push, throw, mbind, mret, JS_bind, JS_ret.

(** * Properties *)

(** ** The order on numbers *)

Section Order.

Implicit Types a b r : number.

Lemma SFcompare_antisym a b : SFcompare b a = CompOpp <$> SFcompare a b.
Proof.
  destruct a as [sa|sa| |sa ma ea], b as [sb|sb| |sb mb eb]; simpl;
    try reflexivity; try (destruct sa; reflexivity);
    try (destruct sb; reflexivity);
    try (destruct sa, sb; reflexivity).
  destruct sa, sb; simpl; try reflexivity;
    rewrite (Z.compare_antisym ea eb);
    destruct (ea ?= eb)%Z; simpl; try reflexivity;
    rewrite (Pos.compare_cont_antisym ma mb Eq); simpl;
    destruct (Pos.compare_cont Eq ma mb); reflexivity.
Qed.

Lemma leb_not_ltb a b : (a <=? b)%num = true → (b <? a)%num = false.
Proof.
  unfold number_leb, number_ltb, SFleb, SFltb.
  rewrite (SFcompare_antisym a b).
  destruct (SFcompare a b) as [[]|]; simpl; congruence.
Qed.

(** [number_min] is the ternary of the source. *)
Lemma number_min_ltb a b :
  number_min a b = if (b <? a)%num then b else a.
Proof.
  unfold number_min, number_ltb, SFltb.
  rewrite (SFcompare_antisym a b).
  destruct (SFcompare a b) as [[]|]; reflexivity.
Qed.

Lemma SFcompare_refl a : is_nan a = false → SFcompare a a = Some Eq.
Proof.
  destruct a as [sa|sa| |sa ma ea]; simpl; intros H;
    try discriminate H; try (destruct sa; reflexivity).
  destruct sa; rewrite Z.compare_refl;
    change (Pos.compare_cont Eq ma ma) with (ma ?= ma)%positive;
    rewrite Pos.compare_refl; reflexivity.
Qed.

Lemma SFcompare_Some_not_nan a b :
  is_Some (SFcompare a b) → is_nan a = false ∧ is_nan b = false.
Proof.
  intros [c Hc].
  destruct a, b; simpl in *; try discriminate Hc; split; reflexivity.
Qed.

(** [number_min] is a lower bound of its arguments and one of them,
    whenever they are ordered. *)
Lemma number_min_spec a b :
  is_Some (SFcompare a b) →
  (number_min a b = a ∨ number_min a b = b)
  ∧ (number_min a b <=? a)%num = true
  ∧ (number_min a b <=? b)%num = true.
Proof.
  intros Hord. destruct (SFcompare_Some_not_nan a b Hord) as [Ha Hb].
  destruct Hord as [c Hc].
  unfold number_min, number_leb, SFleb. rewrite Hc.
  assert (Hba : SFcompare b a = Some (CompOpp c))
    by (rewrite SFcompare_antisym, Hc; reflexivity).
  pose proof (SFcompare_refl a Ha) as Haa.
  pose proof (SFcompare_refl b Hb) as Hbb.
  destruct c; simpl in *; rewrite ?Hc, ?Hba, ?Haa, ?Hbb; auto.
Qed.

End Order.

(** ** The two branches of the call and the body of the arrow function *)

Section Call.

Variables (this : NgbDropdown) (config : ref) (w : World).

Lemma call_wide :
  (ToNumber (innerWidth <$> window w) <? of_Z 400)%num = false →
  popperOptionsWithAutoOffset this config w = (Normal config, w).
Proof. run_js. intros ->. reflexivity. Qed.

Lemma call_narrow a :
  (ToNumber (innerWidth <$> window w) <? of_Z 400)%num = true →
  modifiers (configs w config) = Some a →
  popperOptionsWithAutoOffset this config w =
    (Normal config,
     set_arrays
       (<[a := arrays w a ++
               [offset_modifier
                  {| windowWidth := innerWidth <$> window w;
                     dropdownElement := _nativeElement this |}]]>
          (arrays w)) w).
Proof. run_js. intros -> ->. reflexivity. Qed.

Lemma call_narrow_undefined :
  (ToNumber (innerWidth <$> window w) <? of_Z 400)%num = true →
  modifiers (configs w config) = None →
  popperOptionsWithAutoOffset this config w = (Throw TypeError, w).
Proof. run_js. intros -> ->. reflexivity. Qed.

End Call.

Lemma offset_fn_run f state w :
  offset_fn f state w =
    (Normal
       (spec_offset (ToNumber (windowWidth f))
          (offsetLeft (elements w (dropdownElement f)))
          (width (popper state))),
     w).
Proof. run_js. unfold spec_offset. rewrite number_min_ltb. reflexivity. Qed.

Lemma layout_passes_run f states w :
  layout_passes f states w =
    (Normal ((λ state, spec_offset (ToNumber (windowWidth f))
                (offsetLeft (elements w (dropdownElement f)))
                (width (popper state))) <$> states),
     w).
Proof.
  induction states as [|state rest IH]; simpl; [reflexivity|].
  unfold mbind, JS_bind at 1. rewrite offset_fn_run.
  unfold mbind, JS_bind at 1. rewrite IH. reflexivity.
Qed.

(** ** The unit tests *)

Example should_not_add_offset_modifier_at_400 :
  let '(r, w') := popperOptionsWithAutoOffset context test_config
                    (test_world (Some (of_Z 400)) (Some test_modifiers)) in
  r = Normal test_config ∧ length (arrays w' test_modifiers) = 0%nat.
Proof. vm_compute. split; reflexivity. Qed.

Example should_calculate_offset_with_right_overflow :
  let '(r, w') := popperOptionsWithAutoOffset context test_config
                    (test_world (Some (of_Z 300)) (Some test_modifiers)) in
  r = Normal test_config
  ∧ offset_at w' 0 (of_Z 250) = Some (Normal (of_Z (-60), of_Z 0)).
Proof. vm_compute. split; reflexivity. Qed.

Example should_calculate_offset_without_right_overflow :
  let '(r, w') := popperOptionsWithAutoOffset context test_config
                    (test_world (Some (of_Z 300)) (Some test_modifiers)) in
  r = Normal test_config
  ∧ offset_at w' 0 (of_Z 100) = Some (Normal (of_Z 0, of_Z 0)).
Proof. vm_compute. split; reflexivity. Qed.

(** ** The offset function *)

(** C1.  When the viewport width [W] read by the call is below 400 and the
    configuration has a modifiers array, the call returns, moves no
    element, and the last entry of the array carries an offset function;
    invoked with a layout state whose [popper.width] is [P], while the
    left offset of the trigger element is [L], that function returns
    exactly [[min(0, (W - 10) - (L + P)), 0]] and leaves the store as it
    is. *)
Theorem offset_fn_of_call_min
    (this : NgbDropdown) (config a : ref) (w : World) (W : number) :
  window w = Some {| innerWidth := W |} →
  (W <? of_Z 400)%num = true →
  modifiers (configs w config) = Some a →
  ∃ f w',
    popperOptionsWithAutoOffset this config w = (Normal config, w')
    ∧ elements w' = elements w
    ∧ last (arrays w' a) ≫= modifier_fn = Some f
    ∧ ∀ (w2 : World) (state : LayoutState) (L P : number),
        offsetLeft (elements w2 (_nativeElement this)) = L →
        width (popper state) = P →
        offset_fn f state w2 = (Normal (spec_offset W L P), w2).
Proof.
  intros Hwin Hlt Hmods.
  eexists _, _. split; [|split; [|split]].
  - apply call_narrow; [rewrite Hwin; exact Hlt | exact Hmods].
  - reflexivity.
  - simpl. rewrite fn_lookup_insert, last_snoc. reflexivity.
  - intros w2 state L P <- <-. rewrite offset_fn_run, Hwin. reflexivity.
Qed.

(** Scenario B of the specification, the second unit test: width 300, left
    offset 100, popper width 250 give [[-60, 0]]. *)
Lemma offset_fn_of_call_min_witness :
  ∃ f w',
    popperOptionsWithAutoOffset context test_config
      (test_world (Some (of_Z 300)) (Some test_modifiers))
      = (Normal test_config, w')
    ∧ offset_fn f (test_state (of_Z 250)) (test_world None None)
      = (Normal (of_Z (-60), of_Z 0), test_world None None).
Proof.
  destruct (offset_fn_of_call_min context test_config test_modifiers
              (test_world (Some (of_Z 300)) (Some test_modifiers))
              (of_Z 300) eq_refl eq_refl eq_refl)
    as (f & w' & Hcall & _ & _ & Hfn).
  exists f, w'. split; [exact Hcall|].
  exact (Hfn (test_world None None) (test_state (of_Z 250))
           (of_Z 100) (of_Z 250) eq_refl eq_refl).
Defined.

(** ** The threshold *)

(** C2.  When the viewport width [W] is at least 400 the call returns the
    reference it was given and the store is the one it started from: no
    array has grown, the configuration is as it was.  The test is a strict
    [<]: at 400 nothing is pushed, at 399 one entry is. *)
Theorem call_wide_passthrough
    (this : NgbDropdown) (config : ref) (w : World) (W : number) :
  window w = Some {| innerWidth := W |} →
  ((of_Z 400 <=? W)%num = true →
     ∃ w', popperOptionsWithAutoOffset this config w = (Normal config, w')
           ∧ w' = w
           ∧ ∀ r, length (arrays w' r) = length (arrays w r))
  ∧ (W = of_Z 400 →
       popperOptionsWithAutoOffset this config w = (Normal config, w))
  ∧ (W = of_Z 399 →
       ∀ a, modifiers (configs w config) = Some a →
         ∃ w', popperOptionsWithAutoOffset this config w = (Normal config, w')
               ∧ length (arrays w' a) = S (length (arrays w a))).
Proof.
  intros Hwin. split; [|split].
  - intros Hge. exists w. split; [|split; [reflexivity|reflexivity]].
    apply call_wide. rewrite Hwin. apply leb_not_ltb, Hge.
  - intros ->. apply call_wide. rewrite Hwin. reflexivity.
  - intros -> a Hmods. eexists. split.
    + apply call_narrow; [rewrite Hwin; reflexivity | exact Hmods].
    + simpl. rewrite fn_lookup_insert, length_app. simpl. lia.
Qed.

(** Scenario A and scenario D: the first unit test at width 400, and the
    same set-up one pixel narrower. *)
Lemma call_wide_passthrough_witness :
  popperOptionsWithAutoOffset context test_config
    (test_world (Some (of_Z 400)) (Some test_modifiers))
  = (Normal test_config, test_world (Some (of_Z 400)) (Some test_modifiers))
  ∧ ∃ w', popperOptionsWithAutoOffset context test_config
            (test_world (Some (of_Z 399)) (Some test_modifiers))
          = (Normal test_config, w')
          ∧ length (arrays w' test_modifiers) = 1%nat.
Proof.
  split.
  - destruct (call_wide_passthrough context test_config
                (test_world (Some (of_Z 400)) (Some test_modifiers))
                (of_Z 400) eq_refl) as (Hge & _ & _).
    destruct (Hge eq_refl) as (w' & Hcall & -> & _). exact Hcall.
  - destruct (call_wide_passthrough context test_config
                (test_world (Some (of_Z 399)) (Some test_modifiers))
                (of_Z 399) eq_refl) as (_ & _ & Hlt).
    exact (Hlt eq_refl test_modifiers eq_refl).
Defined.

(** C3.  When the viewport width is below 400 and the configuration has a
    modifiers array, the call pushes exactly one entry onto that array, the
    entry is named ["offset"], the array is one longer, it is still the
    array of the configuration, and no other array changes. *)
Theorem call_narrow_appends_offset
    (this : NgbDropdown) (config a : ref) (w : World) :
  (ToNumber (innerWidth <$> window w) <? of_Z 400)%num = true →
  modifiers (configs w config) = Some a →
  ∃ m w',
    popperOptionsWithAutoOffset this config w = (Normal config, w')
    ∧ arrays w' a = arrays w a ++ [m]
    ∧ name m = "offset"
    ∧ length (arrays w' a) = S (length (arrays w a))
    ∧ modifiers (configs w' config) = Some a
    ∧ ∀ r, r ≠ a → arrays w' r = arrays w r.
Proof.
  intros Hlt Hmods. eexists _, _. split; [apply call_narrow; eassumption|].
  simpl. rewrite fn_lookup_insert, length_app. simpl.
  repeat split; [lia | exact Hmods |].
  intros r Hr. apply fn_lookup_insert_ne. congruence.
Qed.

Lemma call_narrow_appends_offset_witness :
  ∃ m w',
    popperOptionsWithAutoOffset context test_config
      (test_world (Some (of_Z 300)) (Some test_modifiers))
    = (Normal test_config, w')
    ∧ arrays w' test_modifiers = [m]
    ∧ name m = "offset".
Proof.
  destruct (call_narrow_appends_offset context test_config test_modifiers
              (test_world (Some (of_Z 300)) (Some test_modifiers))
              eq_refl eq_refl)
    as (m & w' & Hcall & Harr & Hname & _).
  exists m, w'. repeat split; assumption.
Defined.

(** ** What the closure holds *)

(** The width of the window is held by value and the dropdown element by
    reference: the function adds the left offset the element has when it
    runs.  In the set-up of the second unit test, moving the element to
    the left edge after the call turns [[-60, 0]] into [[0, 0]]. *)
Lemma offset_fn_rereads_offsetLeft :
  let w := test_world (Some (of_Z 300)) (Some test_modifiers) in
  let w' := (popperOptionsWithAutoOffset context test_config w).2 in
  let f := {| windowWidth := Some (of_Z 300);
              dropdownElement := mockDropdownElement |} in
  let state := test_state (of_Z 250) in
  last (arrays w' test_modifiers) ≫= modifier_fn = Some f
  ∧ (offset_fn f state w').1 = Normal (of_Z (-60), of_Z 0)
  ∧ (offset_fn f state (move mockDropdownElement (of_Z 0) w')).1
    = Normal (of_Z 0, of_Z 0)
  ∧ (offset_fn f state (move mockDropdownElement (of_Z 0) w')).1
    ≠ (offset_fn f state w').1.
Proof. vm_compute. repeat split; congruence. Qed.

(** C4, amended.  The offset function pushed by a call holds the viewport
    width read by that call and the dropdown element of that call.  Its
    result depends on the store only through the left offset of that
    element at the time it runs: two stores in which the element has the
    same left offset give the same result, resizing the window changes
    nothing, and after the element has moved to [left] the result is the
    formula at [left]. *)
Theorem offset_fn_captures_width_and_element
    (this : NgbDropdown) (config a : ref) (w : World) (W : number) :
  window w = Some {| innerWidth := W |} →
  (W <? of_Z 400)%num = true →
  modifiers (configs w config) = Some a →
  ∃ f w',
    popperOptionsWithAutoOffset this config w = (Normal config, w')
    ∧ last (arrays w' a) ≫= modifier_fn = Some f
    ∧ (∀ state w1 w2,
         offsetLeft (elements w1 (_nativeElement this))
         = offsetLeft (elements w2 (_nativeElement this)) →
         (offset_fn f state w1).1 = (offset_fn f state w2).1)
    ∧ (∀ state v w1,
         (offset_fn f state (resize v w1)).1 = (offset_fn f state w1).1)
    ∧ (∀ state left w1,
         (offset_fn f state (move (_nativeElement this) left w1)).1
         = Normal (spec_offset W left (width (popper state)))).
Proof.
  intros Hwin Hlt Hmods.
  eexists _, _. split; [|split; [|split; [|split]]].
  - apply call_narrow; [rewrite Hwin; exact Hlt | exact Hmods].
  - simpl. rewrite fn_lookup_insert, last_snoc. reflexivity.
  - intros state w1 w2 Heq. rewrite !offset_fn_run. simpl. rewrite Heq.
    reflexivity.
  - intros state v w1. rewrite !offset_fn_run. reflexivity.
  - intros state left w1. rewrite offset_fn_run. simpl.
    rewrite fn_lookup_insert, Hwin. reflexivity.
Qed.

Lemma offset_fn_captures_width_and_element_witness :
  ∃ f w',
    popperOptionsWithAutoOffset context test_config
      (test_world (Some (of_Z 300)) (Some test_modifiers))
    = (Normal test_config, w')
    ∧ (offset_fn f (test_state (of_Z 250))
         (resize (Some {| innerWidth := of_Z 1024 |}) w')).1
      = (offset_fn f (test_state (of_Z 250)) w').1
    ∧ (offset_fn f (test_state (of_Z 250))
         (move mockDropdownElement (of_Z 0) w')).1
      = Normal (of_Z 0, of_Z 0).
Proof.
  destruct (offset_fn_captures_width_and_element context test_config
              test_modifiers
              (test_world (Some (of_Z 300)) (Some test_modifiers))
              (of_Z 300) eq_refl eq_refl eq_refl)
    as (f & w' & Hcall & _ & _ & Hresize & Hmove).
  exists f, w'. split; [exact Hcall|]. split.
  - apply Hresize.
  - exact (Hmove (test_state (of_Z 250)) (of_Z 0) w').
Defined.

(** ** The frame of a call *)

(** C5.  Whatever the call is given, it either returns the reference it
    was given or throws and leaves the store as it is.  In both cases the
    window, the elements and the configuration objects are as before, and
    every array is its old contents followed by at most one new entry: the
    entries at the old indices are the old entries. *)
Theorem call_frame (this : NgbDropdown) (config : ref) (w : World) :
  let '(r, w') := popperOptionsWithAutoOffset this config w in
  (r = Normal config ∨ (r = Throw TypeError ∧ w' = w))
  ∧ window w' = window w
  ∧ elements w' = elements w
  ∧ configs w' = configs w
  ∧ ∀ a,
      (∃ added, arrays w' a = arrays w a ++ added
                ∧ (length added ≤ 1)%nat)
      ∧ ∀ i, (i < length (arrays w a))%nat →
             arrays w' a !! i = arrays w a !! i.
Proof.
  assert (Hsame : ∀ a : ref,
    (∃ added, arrays w a = arrays w a ++ added ∧ (length added ≤ 1)%nat)
    ∧ ∀ i, (i < length (arrays w a))%nat →
           arrays w a !! i = arrays w a !! i).
  { intros a. split; [|reflexivity].
    exists []. rewrite app_nil_r. split; [reflexivity | simpl; lia]. }
  destruct (ToNumber (innerWidth <$> window w) <? of_Z 400)%num eqn:Hlt.
  - destruct (modifiers (configs w config)) as [a|] eqn:Hmods.
    + rewrite (call_narrow this config w a Hlt Hmods). simpl.
      repeat split; auto.
      * destruct (decide (a = a0)) as [<-|Hne].
        -- rewrite fn_lookup_insert. eexists. split; [reflexivity|].
           simpl. lia.
        -- rewrite fn_lookup_insert_ne by exact Hne. apply Hsame.
      * intros i Hi. destruct (decide (a = a0)) as [<-|Hne].
        -- rewrite fn_lookup_insert. apply lookup_app_l, Hi.
        -- rewrite fn_lookup_insert_ne by exact Hne. reflexivity.
    + rewrite (call_narrow_undefined this config w Hlt Hmods).
      repeat split; auto; apply Hsame.
  - rewrite (call_wide this config w Hlt).
    repeat split; auto; apply Hsame.
Qed.

(** A configuration that already has an entry: the entry stays at index 0
    and the new one comes after it. *)
Lemma call_frame_witness :
  let old := {| name := "flip"; options := None |} in
  let w := {| window := Some {| innerWidth := of_Z 300 |};
              elements := λ _, {| offsetLeft := of_Z 100 |};
              configs := λ _, {| cfg_placement := None; strategy := None;
                                 modifiers := Some test_modifiers |};
              arrays := λ _, [old] |} in
  arrays (popperOptionsWithAutoOffset context test_config w).2 test_modifiers
    !! 0%nat = Some old.
Proof.
  intros old w.
  pose proof (call_frame context test_config w) as H.
  destruct (popperOptionsWithAutoOffset context test_config w) as [r w'].
  destruct H as (_ & _ & _ & _ & H).
  destruct (H test_modifiers) as [_ Hidx].
  simpl. rewrite (Hidx 0%nat); [reflexivity | simpl; lia].
Defined.

(** ** The arrow function as a function *)

(** C6.  Two layout states with the same [popper] give the same result,
    whatever their [reference] and [placement]; the second component of
    the result is always [0]. *)
Theorem offset_fn_ignores_reference_placement
    (f : OffsetsFunction) (s1 s2 : LayoutState) (w : World) :
  (popper s1 = popper s2 → offset_fn f s1 w = offset_fn f s2 w)
  ∧ ∃ dx, (offset_fn f s1 w).1 = Normal (dx, of_Z 0).
Proof.
  split.
  - intros Heq. rewrite !offset_fn_run, Heq. reflexivity.
  - rewrite offset_fn_run. eexists. reflexivity.
Qed.

Lemma offset_fn_ignores_reference_placement_witness :
  let f := {| windowWidth := Some (of_Z 300);
              dropdownElement := mockDropdownElement |} in
  let s1 := test_state (of_Z 250) in
  let s2 := {| popper := popper s1;
               reference := {| width := of_Z 40; height := of_Z 20;
                               rect_x := of_Z 5; rect_y := of_Z 7 |};
               placement := "top-end" |} in
  offset_fn f s1 (test_world None None)
  = offset_fn f s2 (test_world None None).
Proof.
  intros f s1 s2.
  exact (proj1 (offset_fn_ignores_reference_placement f s1 s2
                  (test_world None None)) eq_refl).
Defined.

(** C7.  Calls of the offset function, one after the other in any number
    and on any layout states, all return, and leave the store as it was
    before the first of them; the result of each is the result of a single
    call on that layout state in that store, so that equal layout states
    give equal results wherever they stand in the sequence. *)
Theorem offset_fn_pure
    (f : OffsetsFunction) (states : list LayoutState) (w : World) :
  ∃ outs,
    layout_passes f states w = (Normal outs, w)
    ∧ length outs = length states
    ∧ (∀ i state, states !! i = Some state →
         ∃ out, outs !! i = Some out
                ∧ offset_fn f state w = (Normal out, w))
    ∧ (∀ i j state, states !! i = Some state → states !! j = Some state →
         outs !! i = outs !! j).
Proof.
  eexists. split; [apply layout_passes_run|].
  split; [apply length_fmap|]. split.
  - intros i state Hi. eexists. split.
    + rewrite list_lookup_fmap, Hi. reflexivity.
    + apply offset_fn_run.
  - intros i j state Hi Hj. rewrite !list_lookup_fmap, Hi, Hj. reflexivity.
Qed.

Lemma offset_fn_pure_witness :
  let f := {| windowWidth := Some (of_Z 300);
              dropdownElement := mockDropdownElement |} in
  let w := test_world (Some (of_Z 300)) (Some test_modifiers) in
  ∃ outs,
    layout_passes f
      [test_state (of_Z 250); test_state (of_Z 100); test_state (of_Z 250)]
      w = (Normal outs, w)
    ∧ outs !! 0%nat = outs !! 2%nat.
Proof.
  intros f w.
  destruct (offset_fn_pure f
              [test_state (of_Z 250); test_state (of_Z 100);
               test_state (of_Z 250)] w)
    as (outs & Hrun & _ & _ & Hsame).
  exists outs. split; [exact Hrun|].
  exact (Hsame 0%nat 2%nat (test_state (of_Z 250)) eq_refl eq_refl).
Defined.

(** ** Exceptions *)

(** C8.  With a modifiers array in the configuration, the call returns
    normally, whatever the window and the numbers in the store are; and
    every call of an offset function returns a pair normally, in every
    store and on every layout state, not-a-number and infinities
    included. *)
Theorem call_and_offset_fn_never_throw
    (this : NgbDropdown) (config a : ref) (w : World) :
  modifiers (configs w config) = Some a →
  (∃ w', popperOptionsWithAutoOffset this config w = (Normal config, w'))
  ∧ ∀ f state w2, ∃ dx dy, offset_fn f state w2 = (Normal (dx, dy), w2).
Proof.
  intros Hmods. split.
  - destruct (ToNumber (innerWidth <$> window w) <? of_Z 400)%num eqn:Hlt.
    + eexists. apply (call_narrow this config w a Hlt Hmods).
    + eexists. apply (call_wide this config w Hlt).
  - intros f state w2. rewrite offset_fn_run. unfold spec_offset.
    eexists _, _. reflexivity.
Qed.

(** A window whose width is not a number and an element infinitely far to
    the right. *)
Lemma call_and_offset_fn_never_throw_witness :
  let w := {| window := Some {| innerWidth := NaN |};
              elements := λ _, {| offsetLeft := Infinity |};
              configs := λ _, {| cfg_placement := None; strategy := None;
                                 modifiers := Some test_modifiers |};
              arrays := λ _, [] |} in
  (∃ w', popperOptionsWithAutoOffset context test_config w
         = (Normal test_config, w'))
  ∧ ∃ dx dy,
      offset_fn {| windowWidth := Some (of_Z 300);
                   dropdownElement := mockDropdownElement |}
        (test_state NaN) w
      = (Normal (dx, dy), w).
Proof.
  intros w.
  destruct (call_and_offset_fn_never_throw context test_config
              test_modifiers w eq_refl) as [Hcall Hfn].
  split; [exact Hcall | apply Hfn].
Defined.

(** What invalid numbers turn into: an infinite left offset gives an
    infinite shift, a popper width that is not a number gives no shift. *)
Example offset_fn_infinite_left :
  (offset_fn {| windowWidth := Some (of_Z 300);
                dropdownElement := mockDropdownElement |}
     (test_state (of_Z 250))
     (move mockDropdownElement Infinity (test_world None None))).1
  = Normal (S754_infinity true, of_Z 0).
Proof. vm_compute. reflexivity. Qed.

Example offset_fn_nan_width :
  (offset_fn {| windowWidth := Some (of_Z 300);
                dropdownElement := mockDropdownElement |}
     (test_state NaN) (test_world None None)).1
  = Normal (of_Z 0, of_Z 0).
Proof. vm_compute. reflexivity. Qed.

(** With [window] declared: when [window?.innerWidth] is [undefined] or
    not-a-number, the comparison with 400 is false and the call returns
    the reference it was given, with the store as it was. *)
Lemma call_undefined_or_nan_passthrough
    (this : NgbDropdown) (config : ref) (w : World) :
  innerWidth <$> window w = None ∨ innerWidth <$> window w = Some NaN →
  (ToNumber (innerWidth <$> window w) <? of_Z 400)%num = false
  ∧ popperOptionsWithAutoOffset this config w = (Normal config, w).
Proof.
  intros Hnan.
  assert (Hlt : (ToNumber (innerWidth <$> window w) <? of_Z 400)%num = false)
    by (destruct Hnan as [-> | ->]; reflexivity).
  split; [exact Hlt | apply call_wide, Hlt].
Qed.

(** In a realm without a [window] binding the call does not pass through:
    with the configuration of the unit tests it throws a
    [ReferenceError], and returns no reference. *)
Lemma call_without_window_throws :
  let g := {| window_declared := false;
              store := test_world None (Some test_modifiers) |} in
  popperOptionsWithAutoOffset_in context test_config g
  = (Throw ReferenceError, g)
  ∧ (popperOptionsWithAutoOffset_in context test_config g).1
    ≠ Normal test_config.
Proof. split; [reflexivity | discriminate]. Qed.

(** C9, amended.  In a realm where [window] is declared, when
    [window?.innerWidth] is [undefined] ([window] holds [undefined] or
    [null]) or not-a-number, the comparison with 400 is false and the call
    returns the reference it was given, with the realm and its store as
    they were.  In a realm where [window] is not declared the call throws
    a [ReferenceError], with the realm and its store as they were. *)
Theorem call_in_realm_undefined_or_nan
    (this : NgbDropdown) (config : ref) (g : Realm) :
  (window_declared g = true →
   innerWidth <$> window (store g) = None
   ∨ innerWidth <$> window (store g) = Some NaN →
   (ToNumber (innerWidth <$> window (store g)) <? of_Z 400)%num = false
   ∧ popperOptionsWithAutoOffset_in this config g = (Normal config, g))
  ∧ (window_declared g = false →
     popperOptionsWithAutoOffset_in this config g
     = (Throw ReferenceError, g)).
Proof.
  destruct g as [declared w]. simpl. split.
  - intros -> Hnan.
    destruct (call_undefined_or_nan_passthrough this config w Hnan)
      as [Hlt Hcall].
    split; [exact Hlt|].
    unfold popperOptionsWithAutoOffset_in. simpl. rewrite Hcall.
    reflexivity.
  - intros ->. reflexivity.
Qed.

Lemma call_in_realm_undefined_or_nan_witness :
  let bound w := {| window_declared := true; store := w |} in
  let unbound w := {| window_declared := false; store := w |} in
  popperOptionsWithAutoOffset_in context test_config
    (bound (test_world None (Some test_modifiers)))
  = (Normal test_config, bound (test_world None (Some test_modifiers)))
  ∧ popperOptionsWithAutoOffset_in context test_config
      (bound (test_world (Some NaN) (Some test_modifiers)))
    = (Normal test_config,
       bound (test_world (Some NaN) (Some test_modifiers)))
  ∧ popperOptionsWithAutoOffset_in context test_config
      (unbound (test_world (Some (of_Z 300)) (Some test_modifiers)))
    = (Throw ReferenceError,
       unbound (test_world (Some (of_Z 300)) (Some test_modifiers))).
Proof.
  intros bound unbound. split; [|split].
  - exact (proj2 (proj1 (call_in_realm_undefined_or_nan context test_config
                           (bound (test_world None (Some test_modifiers))))
                    eq_refl (or_introl eq_refl))).
  - exact (proj2 (proj1 (call_in_realm_undefined_or_nan context test_config
                           (bound (test_world (Some NaN)
                                     (Some test_modifiers))))
                    eq_refl (or_intror eq_refl))).
  - exact (proj2 (call_in_realm_undefined_or_nan context test_config
                    (unbound (test_world (Some (of_Z 300))
                                (Some test_modifiers))))
             eq_refl).
Defined.

(** C10.  When the viewport width is at least 400 the outcome of the call
    does not depend on the configuration object: whatever is stored at
    [config], a missing [modifiers] included, the call returns [config]
    and changes nothing.  Below 400 a missing [modifiers] is a
    [TypeError]. *)
Theorem call_wide_needs_no_modifiers
    (this : NgbDropdown) (config : ref) (w : World) (W : number) :
  window w = Some {| innerWidth := W |} →
  ((of_Z 400 <=? W)%num = true →
     ∀ o, popperOptionsWithAutoOffset this config (set_config config o w)
          = (Normal config, set_config config o w))
  ∧ ((W <? of_Z 400)%num = true →
       modifiers (configs w config) = None →
       popperOptionsWithAutoOffset this config w = (Throw TypeError, w)).
Proof.
  intros Hwin. split.
  - intros Hge o. apply call_wide. simpl. rewrite Hwin.
    apply leb_not_ltb, Hge.
  - intros Hlt Hmods. apply call_narrow_undefined; [|exact Hmods].
    rewrite Hwin. exact Hlt.
Qed.

Lemma call_wide_needs_no_modifiers_witness :
  let o := {| cfg_placement := None; strategy := None; modifiers := None |} in
  let w := test_world (Some (of_Z 400)) (Some test_modifiers) in
  popperOptionsWithAutoOffset context test_config (set_config test_config o w)
  = (Normal test_config, set_config test_config o w)
  ∧ popperOptionsWithAutoOffset context test_config
      (test_world (Some (of_Z 300)) None)
    = (Throw TypeError, test_world (Some (of_Z 300)) None).
Proof.
  intros o w. split.
  - exact (proj1 (call_wide_needs_no_modifiers context test_config w
                    (of_Z 400) eq_refl) eq_refl o).
  - exact (proj2 (call_wide_needs_no_modifiers context test_config
                    (test_world (Some (of_Z 300)) None) (of_Z 300) eq_refl)
             eq_refl eq_refl).
Defined.

(** * Further properties *)

(** ** Integers are exact

    An integer of at most 53 bits is held by binary64 as it is; the sum
    and the difference of two such integers, when they have at most 53
    bits themselves, are computed without rounding, and the order of the
    numbers is the order of the integers. *)

Section Integers.

Local Open Scope Z_scope.

Lemma iter_xO_Z p k : Zpos (Pos.iter xO p k) = Zpos p * 2 ^ Zpos k.
Proof.
  induction k as [|k IH] using Pos.peano_ind.
  - simpl. lia.
  - rewrite Pos.iter_succ, Pos2Z.inj_xO, IH, Pos2Z.inj_succ, Z.pow_succ_r by lia.
    lia.
Qed.

Lemma shl_Z p n : 0 <= n -> Zpos (shl p n) = Zpos p * 2 ^ n.
Proof.
  destruct n as [|k|k]; simpl; intros H; [lia | | lia].
  apply iter_xO_Z.
Qed.

Lemma digits_iter_xO p k :
  Zpos (digits2_pos (Pos.iter xO p k)) = Zpos (digits2_pos p) + Zpos k.
Proof.
  induction k as [|k IH] using Pos.peano_ind.
  - simpl. lia.
  - rewrite Pos.iter_succ. simpl. rewrite Pos2Z.inj_succ, IH. lia.
Qed.

Lemma digits_shl p n :
  0 <= n -> Zpos (digits2_pos (shl p n)) = Zpos (digits2_pos p) + n.
Proof.
  destruct n as [|k|k]; simpl; intros H; [lia | | lia].
  apply digits_iter_xO.
Qed.

Lemma digits_bounds p :
  2 ^ (Zpos (digits2_pos p) - 1) <= Zpos p < 2 ^ Zpos (digits2_pos p).
Proof.
  induction p as [p IH|p IH|]; simpl digits2_pos.
  - rewrite Pos2Z.inj_succ. change (Zpos p~1) with (2 * Zpos p + 1).
    replace (Z.succ (Zpos (digits2_pos p)) - 1)
      with (Z.succ (Zpos (digits2_pos p) - 1)) by lia.
    rewrite !Z.pow_succ_r by lia. lia.
  - rewrite Pos2Z.inj_succ. change (Zpos p~0) with (2 * Zpos p).
    replace (Z.succ (Zpos (digits2_pos p)) - 1)
      with (Z.succ (Zpos (digits2_pos p) - 1)) by lia.
    rewrite !Z.pow_succ_r by lia. lia.
  - simpl. lia.
Qed.

Lemma digits_le p n : Zpos p < 2 ^ n -> Zpos (digits2_pos p) <= n.
Proof.
  intros H. destruct (Z.le_gt_cases (Zpos (digits2_pos p)) n) as [|Hgt]; [assumption|].
  pose proof (digits_bounds p) as [Hlo _].
  assert (2 ^ n <= 2 ^ (Zpos (digits2_pos p) - 1)); [|lia].
  destruct (Z.le_gt_cases 0 n).
  - apply Z.pow_le_mono_r; lia.
  - rewrite (Z.pow_neg_r 2 n) by lia. apply Z.pow_nonneg. lia.
Qed.

Lemma iter_pos_shr_1 p k :
  SpecFloat.iter_pos shr_1 k {| shr_m := Zpos (Pos.iter xO p k); shr_r := false; shr_s := false |}
  = {| shr_m := Zpos p; shr_r := false; shr_s := false |}.
Proof.
  assert (Hcomm : forall (n : positive) x, SpecFloat.iter_pos shr_1 n (shr_1 x) = shr_1 (SpecFloat.iter_pos shr_1 n x)).
  { induction n as [n IH|n IH|]; intros x; simpl; rewrite ?IH; reflexivity. }
  assert (Hsucc : forall (n : positive) x, SpecFloat.iter_pos shr_1 (Pos.succ n) x = shr_1 (SpecFloat.iter_pos shr_1 n x)).
  { induction n as [n IH|n IH|]; intros x; simpl.
    - rewrite !IH, !Hcomm. reflexivity.
    - rewrite !Hcomm. reflexivity.
    - reflexivity. }
  revert p. induction k as [|k IH] using Pos.peano_ind; intros p.
  - reflexivity.
  - rewrite Hsucc, Pos.iter_succ_r, IH. reflexivity.
Qed.

Lemma shr_shl p e n :
  0 <= n ->
  shr {| shr_m := Zpos (shl p n); shr_r := false; shr_s := false |} e n
  = ({| shr_m := Zpos p; shr_r := false; shr_s := false |}, e + n).
Proof.
  destruct n as [|k|k]; simpl; intros H; [|rewrite iter_pos_shr_1|lia].
  - rewrite Z.add_0_r. reflexivity.
  - reflexivity.
Qed.

Lemma shl_shl p a b : 0 <= a -> 0 <= b -> shl (shl p a) b = shl p (a + b).
Proof.
  intros Ha Hb. apply Pos2Z.inj. rewrite !shl_Z by lia.
  rewrite Z.pow_add_r by lia. lia.
Qed.

(** A magnitude of at most 53 bits, given with [k] trailing zero bits and
    the exponent [-k], rounds to itself. *)
Lemma binary_round_shl s p k :
  0 <= k -> Zpos (digits2_pos p) <= prec ->
  binary_round prec emax s (shl p k) (- k) = normal s p.
Proof.
  intros Hk Hd. unfold binary_round, normal.
  set (d := Zpos (digits2_pos p)) in *.
  assert (Hd1 : 1 <= d) by (subst d; lia).
  unfold prec in Hd.
  rewrite digits_shl by lia. fold d.
  replace (d + k + - k) with d by lia.
  assert (Hfexp : fexp prec emax d = d - 53)
    by (unfold fexp, emin, prec, emax; lia).
  rewrite Hfexp.
  assert (Halign : exists k', 53 - d <= k' /\ 0 <= k' /\
            shl_align (shl p k) (- k) (d - 53) = (shl p k', - k')).
  { unfold shl_align. destruct (d - 53 - - k) as [|q|q] eqn:Hq.
    - exists k. split; [lia | split; [lia | reflexivity]].
    - exists k. split; [lia | split; [lia | reflexivity]].
    - exists (53 - d). split; [lia | split; [lia |]].
      change (Pos.iter xO (shl p k) q) with (shl (shl p k) (Zpos q)).
      rewrite shl_shl by lia.
      replace (k + Zpos q) with (53 - d) by lia.
      replace (- (53 - d)) with (d - 53) by lia. reflexivity. }
  destruct Halign as (k' & Hk1 & Hk2 & ->).
  unfold binary_round_aux, shr_fexp. simpl Zdigits2.
  rewrite digits_shl by lia. fold d.
  replace (d + k' + - k') with d by lia. rewrite Hfexp.
  replace (shl p k') with (shl (shl p (53 - d)) (d - 53 - - k'))
    by (rewrite shl_shl by lia; f_equal; lia).
  simpl shr_record_of_loc. rewrite shr_shl by lia.
  simpl shr_m. simpl loc_of_shr_record. simpl round_nearest_even.
  simpl Zdigits2. rewrite digits_shl by lia. fold d.
  replace (d + (53 - d) + (- k' + (d - 53 - - k'))) with d by lia.
  rewrite Hfexp.
  replace (d - 53 - (- k' + (d - 53 - - k'))) with 0 by lia.
  simpl shr. simpl shr_m.
  replace (- k' + (d - 53 - - k')) with (d - 53) by lia.
  unfold prec, emax.
  destruct (Z.leb_spec (d - 53) (1024 - 53)); [reflexivity | lia].
Qed.


Lemma safe_digits p : safe_integer (Zpos p) -> Zpos (digits2_pos p) <= prec.
Proof. unfold safe_integer. intros H. apply digits_le. exact H. Qed.

Lemma safe_digits_neg p : safe_integer (Zneg p) -> Zpos (digits2_pos p) <= prec.
Proof. unfold safe_integer. intros H. apply digits_le. exact H. Qed.

Lemma of_Z_pos p : safe_integer (Zpos p) -> of_Z (Zpos p) = normal false p.
Proof.
  intros H. unfold of_Z, binary_normalize.
  apply (binary_round_shl false p 0); [lia | apply safe_digits, H].
Qed.

Lemma of_Z_neg p : safe_integer (Zneg p) -> of_Z (Zneg p) = normal true p.
Proof.
  intros H. unfold of_Z, binary_normalize.
  apply (binary_round_shl true p 0); [lia | apply safe_digits_neg, H].
Qed.

Lemma of_Z_signed s p : safe_integer (Zpos p) -> of_Z (signed s p) = normal s p.
Proof. destruct s; [apply of_Z_neg | apply of_Z_pos]. Qed.

(** The sum of two magnitudes aligned on a common exponent [- k]. *)
Lemma binary_normalize_scaled z k :
  0 <= k -> safe_integer z ->
  binary_normalize prec emax (z * 2 ^ k) (- k) false = of_Z z.
Proof.
  intros Hk Hz.
  assert (Hpow : 0 < 2 ^ k) by (apply Z.pow_pos_nonneg; lia).
  destruct z as [|p|p].
  - reflexivity.
  - rewrite <- shl_Z by lia. simpl binary_normalize.
    rewrite binary_round_shl by (try lia; apply safe_digits, Hz).
    symmetry. apply of_Z_pos, Hz.
  - replace (Zneg p * 2 ^ k) with (Zneg (shl p k))
      by (rewrite <- Pos2Z.opp_pos, shl_Z by lia; lia).
    simpl binary_normalize.
    rewrite binary_round_shl by (try lia; apply safe_digits_neg, Hz).
    symmetry. apply of_Z_neg, Hz.
Qed.

Lemma align_normal p q :
  Zpos (digits2_pos p) <= prec -> Zpos (digits2_pos q) <= prec ->
  let ep := Zpos (digits2_pos p) - prec in
  let eq := Zpos (digits2_pos q) - prec in
  Zpos (fst (shl_align (shl p (- ep)) ep (Z.min ep eq)))
  = Zpos p * 2 ^ (- Z.min ep eq).
Proof.
  intros Hp Hq ep eq. unfold shl_align.
  destruct (Z.min ep eq - ep) as [|r|r] eqn:Hr; simpl fst.
  - rewrite shl_Z by lia. replace (Z.min ep eq) with ep by lia. reflexivity.
  - lia.
  - change (Pos.iter xO (shl p (- ep)) r) with (shl (shl p (- ep)) (Zpos r)).
    rewrite shl_shl, shl_Z by lia. f_equal. f_equal. lia.
Qed.

Lemma cond_Zopp_signed s p k :
  cond_Zopp s (Zpos p * 2 ^ k) = signed s p * 2 ^ k.
Proof. destruct s; simpl; lia. Qed.

Lemma normal_add sa p sb q :
  safe_integer (Zpos p) -> safe_integer (Zpos q) -> safe_integer (signed sa p + signed sb q) ->
  number_add (normal sa p) (normal sb q) = of_Z (signed sa p + signed sb q).
Proof.
  intros Hp Hq Hs.
  pose proof (safe_digits p Hp) as Hdp. pose proof (safe_digits q Hq) as Hdq.
  unfold number_add, normal, SFadd.
  replace (prec - Zpos (digits2_pos p)) with (- (Zpos (digits2_pos p) - prec)) by lia.
  replace (prec - Zpos (digits2_pos q)) with (- (Zpos (digits2_pos q) - prec)) by lia.
  rewrite (align_normal p q Hdp Hdq).
  rewrite (Z.min_comm (Zpos (digits2_pos p) - prec)).
  rewrite (align_normal q p Hdq Hdp).
  rewrite !cond_Zopp_signed, <- Z.mul_add_distr_r.
  set (k := - Z.min _ _).
  replace (Z.min _ _) with (- k) by (subst k; lia).
  apply binary_normalize_scaled; [subst k; lia | exact Hs].
Qed.

Lemma normal_sub sa p sb q :
  safe_integer (Zpos p) -> safe_integer (Zpos q) -> safe_integer (signed sa p - signed sb q) ->
  number_sub (normal sa p) (normal sb q) = of_Z (signed sa p - signed sb q).
Proof.
  intros Hp Hq Hs.
  pose proof (safe_digits p Hp) as Hdp. pose proof (safe_digits q Hq) as Hdq.
  unfold number_sub, normal, SFsub.
  replace (prec - Zpos (digits2_pos p)) with (- (Zpos (digits2_pos p) - prec)) by lia.
  replace (prec - Zpos (digits2_pos q)) with (- (Zpos (digits2_pos q) - prec)) by lia.
  rewrite (align_normal p q Hdp Hdq).
  rewrite (Z.min_comm (Zpos (digits2_pos p) - prec)).
  rewrite (align_normal q p Hdq Hdp).
  rewrite !cond_Zopp_signed, <- Z.mul_sub_distr_r.
  set (k := - Z.min _ _).
  replace (Z.min _ _) with (- k) by (subst k; lia).
  apply binary_normalize_scaled; [subst k; lia | exact Hs].
Qed.

Lemma of_Z_cases z :
  safe_integer z ->
  (z = 0 /\ of_Z z = S754_zero false)
  \/ exists s p, z = signed s p /\ safe_integer (Zpos p) /\ of_Z z = normal s p.
Proof.
  intros Hz. destruct z as [|p|p].
  - left. split; reflexivity.
  - right. exists false, p. split; [reflexivity|]. split; [exact Hz|].
    apply of_Z_pos, Hz.
  - right. exists true, p. split; [reflexivity|]. split; [exact Hz|].
    apply of_Z_neg, Hz.
Qed.

Lemma of_Z_add a b :
  safe_integer a -> safe_integer b -> safe_integer (a + b) ->
  number_add (of_Z a) (of_Z b) = of_Z (a + b).
Proof.
  intros Ha Hb Hab.
  destruct (of_Z_cases a Ha) as [[-> ->] | (sa & p & -> & Hp & ->)];
    destruct (of_Z_cases b Hb) as [[-> ->] | (sb & q & -> & Hq & ->)].
  - reflexivity.
  - rewrite Z.add_0_l, of_Z_signed by exact Hq. reflexivity.
  - rewrite Z.add_0_r, of_Z_signed by exact Hp. reflexivity.
  - apply normal_add; assumption.
Qed.

Lemma of_Z_sub a b :
  safe_integer a -> safe_integer b -> safe_integer (a - b) ->
  number_sub (of_Z a) (of_Z b) = of_Z (a - b).
Proof.
  intros Ha Hb Hab.
  destruct (of_Z_cases a Ha) as [[-> ->] | (sa & p & -> & Hp & ->)];
    destruct (of_Z_cases b Hb) as [[-> ->] | (sb & q & -> & Hq & ->)].
  - reflexivity.
  - replace (0 - signed sb q) with (signed (negb sb) q) by (destruct sb; reflexivity).
    rewrite of_Z_signed by exact Hq. reflexivity.
  - rewrite Z.sub_0_r, of_Z_signed by exact Hp. reflexivity.
  - apply normal_sub; assumption.
Qed.

Lemma compare_normal_pos p q :
  safe_integer (Zpos p) -> safe_integer (Zpos q) ->
  match (Zpos (digits2_pos p) - prec ?= Zpos (digits2_pos q) - prec) with
  | Lt => Lt
  | Gt => Gt
  | Eq => Pos.compare_cont Eq (shl p (prec - Zpos (digits2_pos p)))
            (shl q (prec - Zpos (digits2_pos q)))
  end = (Zpos p ?= Zpos q).
Proof.
  intros Hp Hq.
  pose proof (safe_digits p Hp) as Hdp. pose proof (safe_digits q Hq) as Hdq.
  pose proof (digits_bounds p) as [Hpl Hpu].
  pose proof (digits_bounds q) as [Hql Hqu].
  destruct (Z.compare_spec (Zpos (digits2_pos p) - prec) (Zpos (digits2_pos q) - prec)) as [He|He|He].
  - assert (Hd : digits2_pos p = digits2_pos q) by lia. rewrite Hd.
    change (Pos.compare_cont Eq ?x ?y) with (Zpos x ?= Zpos y).
    rewrite !shl_Z by lia.
    assert (Hc : 0 < 2 ^ (prec - Zpos (digits2_pos q)))
      by (apply Z.pow_pos_nonneg; lia).
    destruct (Z.compare_spec (Zpos p) (Zpos q)) as [E|E|E].
    + rewrite E. apply Z.compare_refl.
    + apply Z.compare_lt_iff. nia.
    + apply Z.compare_gt_iff. nia.
  - symmetry. apply Z.compare_lt_iff.
    assert (2 ^ Zpos (digits2_pos p) <= 2 ^ (Zpos (digits2_pos q) - 1))
      by (apply Z.pow_le_mono_r; lia).
    lia.
  - symmetry. apply Z.compare_gt_iff.
    assert (2 ^ Zpos (digits2_pos q) <= 2 ^ (Zpos (digits2_pos p) - 1))
      by (apply Z.pow_le_mono_r; lia).
    lia.
Qed.

Lemma of_Z_compare a b :
  safe_integer a -> safe_integer b -> SFcompare (of_Z a) (of_Z b) = Some (a ?= b).
Proof.
  intros Ha Hb.
  destruct (of_Z_cases a Ha) as [[-> ->] | (sa & p & -> & Hp & ->)];
    destruct (of_Z_cases b Hb) as [[-> ->] | (sb & q & -> & Hq & ->)].
  - reflexivity.
  - destruct sb; reflexivity.
  - destruct sa; reflexivity.
  - unfold normal. destruct sa, sb; simpl SFcompare; try reflexivity.
    + change (signed true p ?= signed true q)
        with (CompOpp (Zpos p ?= Zpos q)).
      rewrite <- (compare_normal_pos p q Hp Hq).
      destruct (_ ?= _); reflexivity.
    + rewrite (compare_normal_pos p q Hp Hq). reflexivity.
Qed.

End Integers.

Lemma number_min_of_Z (a b : Z) :
  safe_integer a → safe_integer b →
  number_min (of_Z a) (of_Z b) = of_Z (Z.min a b).
Proof.
  intros Ha Hb. unfold number_min, Z.min.
  rewrite (of_Z_compare a b Ha Hb). destruct (a ?= b)%Z; reflexivity.
Qed.

Lemma pixels_safe (z : Z) : pixels z → safe_integer z.
Proof. unfold pixels, safe_integer. lia. Qed.

(** The formula of the offset on whole pixels. *)
Lemma spec_offset_of_Z (W L P : Z) :
  pixels W → pixels L → pixels P →
  spec_offset (of_Z W) (of_Z L) (of_Z P)
  = (of_Z (Z.min 0 (W - 10 - (L + P))), of_Z 0).
Proof.
  unfold pixels, spec_offset. intros HW HL HP.
  rewrite of_Z_sub, of_Z_add, of_Z_sub, number_min_of_Z;
    unfold safe_integer; try lia.
  reflexivity.
Qed.

(** ** The shift *)

(** X1.  The first component of every result of the offset function is a
    number that is at most zero: the function never moves the popper to
    the right and never returns not-a-number, whatever numbers it meets;
    the second component is zero. *)
Theorem offset_fn_never_shifts_right
    (f : OffsetsFunction) (state : LayoutState) (w : World) :
  ∃ dx,
    offset_fn f state w = (Normal (dx, of_Z 0), w)
    ∧ (dx <=? of_Z 0)%num = true
    ∧ (of_Z 0 <? dx)%num = false
    ∧ is_nan dx = false.
Proof.
  eexists. split; [unfold offset_fn; run_js; reflexivity|].
  match goal with
  | |- context [if (?r <? _)%num then _ else _] => set (overflow := r)
  end.
  destruct (overflow <? of_Z 0)%num eqn:Hlt.
  - unfold number_ltb, SFltb in Hlt.
    assert (Hc : SFcompare overflow (of_Z 0) = Some Lt)
      by (destruct (SFcompare overflow (of_Z 0)) as [[]|]; congruence).
    split; [unfold number_leb, SFleb; rewrite Hc; reflexivity|].
    split.
    + unfold number_ltb, SFltb. rewrite SFcompare_antisym, Hc. reflexivity.
    + apply (SFcompare_Some_not_nan overflow (of_Z 0)). rewrite Hc. eauto.
  - repeat split.
Qed.

(** X5.  On whole pixels nothing is rounded: with a viewport width [W], a
    left offset [L] and a popper width [P] that are integers, the offset
    function returns the integer [min 0 (W - 10 - (L + P))] and zero. *)
Theorem offset_fn_exact_on_integers
    (e : ref) (state : LayoutState) (w : World) (W L P : Z) :
  pixels W → pixels L → pixels P →
  offsetLeft (elements w e) = of_Z L →
  width (popper state) = of_Z P →
  offset_fn {| windowWidth := Some (of_Z W); dropdownElement := e |} state w
  = (Normal (of_Z (Z.min 0 (W - 10 - (L + P))), of_Z 0), w).
Proof.
  intros HW HL HP Hleft Hwidth.
  rewrite offset_fn_run. simpl. rewrite Hleft, Hwidth.
  rewrite spec_offset_of_Z by assumption. reflexivity.
Qed.

Lemma offset_fn_exact_on_integers_witness :
  offset_fn {| windowWidth := Some (of_Z 320);
               dropdownElement := mockDropdownElement |}
    (test_state (of_Z 275)) (test_world None None)
  = (Normal (of_Z (-65), of_Z 0), test_world None None).
Proof.
  apply (offset_fn_exact_on_integers mockDropdownElement
           (test_state (of_Z 275)) (test_world None None) 320 100 275);
    unfold pixels; first [lia | reflexivity].
Defined.

(** X6.  On whole pixels the shift is what brings the right edge of the
    popper back to ten pixels from the right of the viewport, and no
    more: the shift [d] is at most zero, the right edge [L + P + d] is the
    smaller of [L + P] and [W - 10], and a popper that ends at or before
    [W - 10] is not moved.  The same holds of the numbers: the left
    offset plus the shift plus the width is that edge. *)
Theorem offset_fn_right_edge
    (e : ref) (state : LayoutState) (w : World) (W L P : Z) :
  pixels W → pixels L → pixels P →
  offsetLeft (elements w e) = of_Z L →
  width (popper state) = of_Z P →
  ∃ d : Z,
    offset_fn {| windowWidth := Some (of_Z W); dropdownElement := e |} state w
    = (Normal (of_Z d, of_Z 0), w)
    ∧ (d ≤ 0)%Z
    ∧ (L + P + d = Z.min (L + P) (W - 10))%Z
    ∧ ((L + P ≤ W - 10)%Z → d = 0%Z)
    ∧ (of_Z L + of_Z d + of_Z P)%num = of_Z (Z.min (L + P) (W - 10)).
Proof.
  intros HW HL HP Hleft Hwidth.
  exists (Z.min 0 (W - 10 - (L + P))).
  split; [apply offset_fn_exact_on_integers; assumption|].
  unfold pixels in *.
  split; [lia|]. split; [lia|]. split; [lia|].
  rewrite !of_Z_add; unfold safe_integer; try lia.
  f_equal. lia.
Qed.

Lemma offset_fn_right_edge_witness :
  ∃ d : Z,
    offset_fn {| windowWidth := Some (of_Z 320);
                 dropdownElement := mockDropdownElement |}
      (test_state (of_Z 275)) (test_world None None)
    = (Normal (of_Z d, of_Z 0), test_world None None)
    ∧ (100 + 275 + d = 310)%Z.
Proof.
  destruct (offset_fn_right_edge mockDropdownElement
              (test_state (of_Z 275)) (test_world None None) 320 100 275)
    as (d & Hrun & _ & Hedge & _);
    [unfold pixels; lia | unfold pixels; lia | unfold pixels; lia
    | reflexivity | reflexivity |].
  exists d. split; [exact Hrun | exact Hedge].
Defined.

(** ** The threshold on whole pixels *)

(** X7.  For a viewport width that is an integer [W], the call pushes
    exactly when [W < 400] as integers: the array of the configuration is
    one longer below 400 and as long as before from 400 on. *)
Theorem call_threshold_on_integers
    (this : NgbDropdown) (config a : ref) (w : World) (W : Z) :
  safe_integer W →
  window w = Some {| innerWidth := of_Z W |} →
  modifiers (configs w config) = Some a →
  ∃ w',
    popperOptionsWithAutoOffset this config w = (Normal config, w')
    ∧ arrays w' a
      = arrays w a ++
        (if (W <? 400)%Z then
           [offset_modifier {| windowWidth := Some (of_Z W);
                               dropdownElement := _nativeElement this |}]
         else []).
Proof.
  intros HW Hwin Hmods.
  assert (Hlt : (ToNumber (innerWidth <$> window w) <? of_Z 400)%num
                = (W <? 400)%Z).
  { rewrite Hwin.
    change (ToNumber (innerWidth <$> Some {| innerWidth := of_Z W |}))
      with (of_Z W).
    unfold number_ltb, SFltb, Z.ltb.
    rewrite (of_Z_compare W 400 HW) by (unfold safe_integer; lia).
    reflexivity. }
  destruct (W <? 400)%Z.
  - eexists. split; [apply (call_narrow this config w a Hlt Hmods)|].
    simpl. rewrite fn_lookup_insert, Hwin. reflexivity.
  - exists w. split; [apply (call_wide this config w Hlt)|].
    rewrite app_nil_r. reflexivity.
Qed.

Lemma call_threshold_on_integers_witness :
  ∃ w',
    popperOptionsWithAutoOffset context test_config
      (test_world (Some (of_Z 399)) (Some test_modifiers))
    = (Normal test_config, w')
    ∧ length (arrays w' test_modifiers) = 1%nat.
Proof.
  destruct (call_threshold_on_integers context test_config test_modifiers
              (test_world (Some (of_Z 399)) (Some test_modifiers)) 399)
    as (w' & Hcall & Harr);
    [unfold safe_integer; lia | reflexivity | reflexivity |].
  exists w'. split; [exact Hcall|]. rewrite Harr. reflexivity.
Defined.

(** ** Calls and the store *)

(** X4.  The call does not look at the position of any element: moving
    an element before the call or after it comes to the same, for the
    outcome and for the store. *)
Theorem call_commutes_with_move
    (this : NgbDropdown) (config e : ref) (left : number) (w : World) :
  popperOptionsWithAutoOffset this config (move e left w)
  = let '(r, w') := popperOptionsWithAutoOffset this config w in
    (r, move e left w').
Proof.
  destruct (ToNumber (innerWidth <$> window w) <? of_Z 400)%num eqn:Hlt.
  - destruct (modifiers (configs w config)) as [a|] eqn:Hmods.
    + rewrite (call_narrow this config w a Hlt Hmods).
      rewrite (call_narrow this config (move e left w) a Hlt Hmods).
      reflexivity.
    + rewrite (call_narrow_undefined this config w Hlt Hmods).
      rewrite (call_narrow_undefined this config (move e left w) Hlt Hmods).
      reflexivity.
  - rewrite (call_wide this config w Hlt).
    rewrite (call_wide this config (move e left w) Hlt).
    reflexivity.
Qed.

(** X3.  The array is changed in place: after a call that pushes, every
    configuration object whose [modifiers] is the array of [config] shows
    the new entry, and every configuration object with another array
    shows the array it had. *)
Theorem call_visible_through_aliases
    (this : NgbDropdown) (config a : ref) (w : World) :
  narrow (window w) = true →
  modifiers (configs w config) = Some a →
  ∃ m w',
    popperOptionsWithAutoOffset this config w = (Normal config, w')
    ∧ ∀ other b,
        modifiers (configs w other) = Some b →
        modifiers (configs w' other) = Some b
        ∧ arrays w' b
          = if decide (b = a) then arrays w b ++ [m] else arrays w b.
Proof.
  intros Hlt Hmods. eexists _, _.
  split; [apply (call_narrow this config w a Hlt Hmods)|].
  intros other b Hb. split; [exact Hb|]. simpl.
  destruct (decide (b = a)) as [->|Hne].
  - apply fn_lookup_insert.
  - apply fn_lookup_insert_ne. congruence.
Qed.

(** Two configuration objects built around one array of defaults. *)
Lemma call_visible_through_aliases_witness :
  ∃ w',
    popperOptionsWithAutoOffset context test_config
      (test_world (Some (of_Z 300)) (Some test_modifiers))
    = (Normal test_config, w')
    ∧ modifiers (configs w' 9%positive) = Some test_modifiers
    ∧ length (arrays w' test_modifiers) = 1%nat.
Proof.
  destruct (call_visible_through_aliases context test_config test_modifiers
              (test_world (Some (of_Z 300)) (Some test_modifiers))
              eq_refl eq_refl)
    as (m & w' & Hcall & Hall).
  exists w'. split; [exact Hcall|].
  destruct (Hall 9%positive test_modifiers eq_refl) as [Hmods Harr].
  split; [exact Hmods|]. rewrite Harr. reflexivity.
Defined.

(** X2.  Calls with the same configuration add up: after the function
    has been called once per window of [vs], the array is the old one
    followed by one entry for each call that found a narrow window, in
    the order of the calls and each with the width of its own call.  No
    call removes or replaces an entry, a call at a wide window
    included. *)
Theorem open_each_accumulates
    (this : NgbDropdown) (config a : ref) (vs : list (option Window))
    (w : World) :
  modifiers (configs w config) = Some a →
  ∃ w',
    open_each this config vs w = (Normal tt, w')
    ∧ arrays w' a = arrays w a ++ (vs ≫= pushed this)
    ∧ configs w' = configs w
    ∧ elements w' = elements w.
Proof.
  revert w. induction vs as [|v rest IH]; intros w Hmods.
  - exists w. simpl. rewrite app_nil_r. repeat split.
  - simpl open_each. unfold mbind at 1 2, JS_bind at 1 2. simpl.
    unfold pushed at 1, narrow.
    destruct (ToNumber (innerWidth <$> v) <? of_Z 400)%num eqn:Hlt.
    + rewrite (call_narrow this config (resize v w) a Hlt Hmods).
      match goal with
      | |- context [open_each this config rest ?w1] =>
          destruct (IH w1 Hmods) as (w' & Hrun & Harr & Hcfg & Helt)
      end.
      exists w'. rewrite Hrun. split; [reflexivity|].
      split; [|split; assumption].
      rewrite Harr. simpl. rewrite fn_lookup_insert, <- app_assoc.
      reflexivity.
    + rewrite (call_wide this config (resize v w) Hlt).
      destruct (IH (resize v w) Hmods) as (w' & Hrun & Harr & Hcfg & Helt).
      exists w'. rewrite Hrun. split; [reflexivity|].
      split; [|split; assumption]. rewrite Harr. reflexivity.
Qed.

(** Opened at 300, at 1024 and at 300 again: two entries. *)
Lemma open_each_accumulates_witness :
  ∃ w',
    open_each context test_config
      [Some {| innerWidth := of_Z 300 |};
       Some {| innerWidth := of_Z 1024 |};
       Some {| innerWidth := of_Z 300 |}]
      (test_world None (Some test_modifiers))
    = (Normal tt, w')
    ∧ length (arrays w' test_modifiers) = 2%nat.
Proof.
  destruct (open_each_accumulates context test_config test_modifiers
              [Some {| innerWidth := of_Z 300 |};
               Some {| innerWidth := of_Z 1024 |};
               Some {| innerWidth := of_Z 300 |}]
              (test_world None (Some test_modifiers)) eq_refl)
    as (w' & Hrun & Harr & _).
  exists w'. split; [exact Hrun|]. rewrite Harr. reflexivity.
Defined.
